(** * SearchBar: the animated search input of src/components/SearchBar.tsx

    A shallow embedding of the component: its props, the per-instance state
    cells (the three shared values, the text-input ref), the interaction
    handlers as computations in a small state/effect/exception monad, the
    rendered element tree and the two animated styles.

    JavaScript numbers are modelled as rationals [Q] (no NaN, no rounding);
    equality of computed numbers is [==] ([Qeq]).

    The platform services the component calls into (reanimated's shared
    values, [withTiming] and [interpolate], the native text field, the host
    that supplies the props) are not part of the repository; they are
    modelled in the modules [Reanimated] and [Host] below, separately from
    the component itself. *)

From Stdlib Require Import QArith Qfield Lqa Lia.
From Stdlib Require Import List String Bool.
Import ListNotations.

Local Open Scope Q_scope.

(** ** JavaScript truthiness *)

Module Js.

(** [!x] is true on a number exactly for 0 (and NaN, absent here). *)
Definition truthy_number (x : Q) : bool := negb (Qeq_bool x 0).

(** A string is truthy unless it is empty; [undefined] is falsy. *)
Definition truthy_string (s : option string) : bool :=
  match s with
  | None => false
  | Some EmptyString => false
  | Some (String _ _) => true
  end.

Definition truthy_boolean (b : option bool) : bool :=
  match b with
  | Some true => true
  | _ => false
  end.

(** Errors a handler can raise. *)
Inductive Error : Type :=
| TypeError (what : string).

End Js.

(** ** The animation library, as far as the component uses it *)

Module Reanimated.

(** A running [withTiming] animation of a shared value. *)
Record Timing : Type := mkTiming {
  startValue : Q;
  toValue : Q;
  duration : Q;
  elapsed : Q
}.

(** A shared value: the number read by [.value], and the animation that
    currently drives it, if any. *)
Record SharedValue : Type := mkShared {
  value : Q;
  animation : option Timing
}.

(** [useSharedValue(init)] *)
Definition useSharedValue (init : Q) : SharedValue :=
  {| value := init; animation := None |}.

(** [sv.value = withTiming(toValue, {duration})]: the new animation
    replaces whatever was running and starts from the current value. *)
Definition assignWithTiming (target dur : Q) (sv : SharedValue) : SharedValue :=
  {| value := value sv;
     animation := Some {| startValue := value sv; toValue := target;
                          duration := dur; elapsed := 0 |} |}.

(** Default easing of [withTiming]: [Easing.inOut(Easing.quad)]. *)
Definition quad (t : Q) : Q := t * t.

Definition inOut (easing : Q -> Q) (t : Q) : Q :=
  if Qlt_le_dec t (1 # 2) then easing (t * 2) / 2
  else 1 - easing ((1 - t) * 2) / 2.

Definition easing : Q -> Q := inOut quad.

(** One frame of the scheduler, [dt] time-units after the previous one. *)
Definition frame (dt : Q) (sv : SharedValue) : SharedValue :=
  match animation sv with
  | None => sv
  | Some a =>
      let runtime := elapsed a + dt in
      if Qle_bool (duration a) runtime
      then {| value := toValue a; animation := None |}
      else {| value := startValue a
                       + (toValue a - startValue a) * easing (runtime / duration a);
              animation := Some {| startValue := startValue a;
                                   toValue := toValue a;
                                   duration := duration a;
                                   elapsed := runtime |} |}
  end.

(** The segment of the input/output ranges used for a given input. *)
Record Segment : Type := mkSegment {
  leftEdgeInput : Q;
  rightEdgeInput : Q;
  leftEdgeOutput : Q;
  rightEdgeOutput : Q
}.

(** Linear interpolation on one segment, extended beyond its edges (the
    default extrapolation). *)
Definition internalInterpolate (x : Q) (s : Segment) : Q :=
  if Qeq_bool (rightEdgeInput s - leftEdgeInput s) 0
  then leftEdgeOutput s
  else
    let progress := (x - leftEdgeInput s) / (rightEdgeInput s - leftEdgeInput s) in
    leftEdgeOutput s + progress * (rightEdgeOutput s - leftEdgeOutput s).

(** Walk the ranges: take the first segment whose right edge is not below
    [x], or the last segment. *)
Fixpoint narrow (x : Q) (x0 y0 : Q) (input output : list Q) : option Segment :=
  match input, output with
  | x1 :: input', y1 :: output' =>
      let here := {| leftEdgeInput := x0; rightEdgeInput := x1;
                     leftEdgeOutput := y0; rightEdgeOutput := y1 |} in
      match input' with
      | [] => Some here
      | _ :: _ => if Qle_bool x x1 then Some here
                  else narrow x x1 y1 input' output'
      end
  | _, _ => None
  end.

(** [interpolate(x, input, output)]; [None] when a range has fewer than
    two points (the library throws). *)
Definition interpolate (x : Q) (input output : list Q) : option Q :=
  match input, output with
  | x0 :: input', y0 :: output' =>
      match narrow x x0 y0 input' output' with
      | Some s => Some (internalInterpolate x s)
      | None => None
      end
  | _, _ => None
  end.

End Reanimated.

(** ** Props, state cells and observable effects *)

(** The native focus/blur event object handed to [onFocus] / [onBlur]; only
    its identity matters here. *)
Definition FocusEvent : Type := nat.

(** [SearchBarProps].  A callback prop is recorded by whether the host
    supplied it ([true]) or left it [undefined] ([false]); what a supplied
    callback does is the host's business and shows up as an [Effect].
    [onChangeText] is required by the type and has no field of its own.
    [containerStyle] only decorates the outer view and is left out. *)
Record SearchBarProps : Type := mkProps {
  onCancel : bool;
  onFocus : bool;
  onBlur : bool;
  onSubmitEditing : bool;
  placeholder : option string;
  animationDuration : option Q;
  value : option string;
  autoFocus : option bool
}.

Definition set_value (v : option string) (p : SearchBarProps) : SearchBarProps :=
  {| onCancel := onCancel p; onFocus := onFocus p; onBlur := onBlur p;
     onSubmitEditing := onSubmitEditing p; placeholder := placeholder p;
     animationDuration := animationDuration p; value := v;
     autoFocus := autoFocus p |}.

Definition set_animationDuration (d : option Q) (p : SearchBarProps) : SearchBarProps :=
  {| onCancel := onCancel p; onFocus := onFocus p; onBlur := onBlur p;
     onSubmitEditing := onSubmitEditing p; placeholder := placeholder p;
     animationDuration := d; value := value p;
     autoFocus := autoFocus p |}.

(** What a handler does to the outside world, in program order. *)
Inductive Effect : Type :=
| CallOnChangeText (text : option string)
| CallOnCancel
| CallOnFocus (e : FocusEvent)
| CallOnBlur (e : FocusEvent)
| CallOnSubmitEditing
| StartTiming (target dur : Q)      (* isFocused.value = withTiming(target, {duration: dur}) *)
| PreventDefault
| InputFocus                        (* textInputRef.current.focus() *)
| InputBlur.                        (* textInputRef.current.blur() *)

(** The per-instance state: the hooks' cells and the native text field
    behind [textInputRef].  [containerWidth] and [cancelButtonWidth] are
    shared values that are only ever assigned plain numbers, so each is kept
    as the number it holds; [isFocused] is the one cell that is animated. *)
Record World : Type := mkWorld {
  containerWidth : Q;
  cancelButtonWidth : Q;
  isFocused : Reanimated.SharedValue;
  textInputRef : bool;       (* textInputRef.current is attached *)
  inputFocused : bool;       (* the native field holds the focus *)
  inputText : string         (* the text the native field shows *)
}.

Definition set_containerWidth (x : Q) (w : World) : World :=
  {| containerWidth := x; cancelButtonWidth := cancelButtonWidth w;
     isFocused := isFocused w; textInputRef := textInputRef w;
     inputFocused := inputFocused w; inputText := inputText w |}.

Definition set_cancelButtonWidth (x : Q) (w : World) : World :=
  {| containerWidth := containerWidth w; cancelButtonWidth := x;
     isFocused := isFocused w; textInputRef := textInputRef w;
     inputFocused := inputFocused w; inputText := inputText w |}.

Definition set_isFocused (sv : Reanimated.SharedValue) (w : World) : World :=
  {| containerWidth := containerWidth w; cancelButtonWidth := cancelButtonWidth w;
     isFocused := sv; textInputRef := textInputRef w;
     inputFocused := inputFocused w; inputText := inputText w |}.

Definition set_inputFocused (b : bool) (w : World) : World :=
  {| containerWidth := containerWidth w; cancelButtonWidth := cancelButtonWidth w;
     isFocused := isFocused w; textInputRef := textInputRef w;
     inputFocused := b; inputText := inputText w |}.

Definition set_inputText (s : string) (w : World) : World :=
  {| containerWidth := containerWidth w; cancelButtonWidth := cancelButtonWidth w;
     isFocused := isFocused w; textInputRef := textInputRef w;
     inputFocused := inputFocused w; inputText := s |}.

(** ** The handler monad: state, emitted effects, exceptions *)

Inductive Result (A : Type) : Type :=
| Ok (a : A) (w : World) (effects : list Effect)
| Throw (err : Js.Error).

Arguments Ok {A} a w effects.
Arguments Throw {A} err.

Definition M (A : Type) : Type := World -> Result A.

Definition ret {A} (a : A) : M A := fun w => Ok a w [].

Definition bind {A B} (m : M A) (k : A -> M B) : M B :=
  fun w =>
    match m w with
    | Ok a w1 e1 =>
        match k a w1 with
        | Ok b w2 e2 => Ok b w2 (e1 ++ e2)
        | Throw err => Throw err
        end
    | Throw err => Throw err
    end.

Notation "m1 ;; m2" := (bind m1 (fun _ => m2))
  (at level 61, right associativity).

Definition emit (e : Effect) : M unit := fun w => Ok tt w [e].
Definition modify (f : World -> World) : M unit := fun w => Ok tt (f w) [].
Definition gets {A} (f : World -> A) : M A := fun w => Ok (f w) w [].
Definition throw {A} (err : Js.Error) : M A := fun _ => Throw err.

(** [f(args)] for a callback prop: calling [undefined] is a TypeError. *)
Definition call (supplied : bool) (e : Effect) : M unit :=
  if supplied then emit e
  else throw (Js.TypeError "undefined is not a function").

(** [f?.(args)] *)
Definition optional_call (supplied : bool) (e : Effect) : M unit :=
  if supplied then call supplied e else ret tt.

(** ** The component *)

Definition MARGIN_LEFT_BUTTON : Q := 10.

(** [onPressClear] *)
Definition onPressClear (p : SearchBarProps) : M unit :=
  emit (CallOnChangeText None).

(** [textInputRef.current?.blur()] *)
Definition ref_blur : M unit :=
  bind (gets textInputRef) (fun attached =>
    if attached then emit InputBlur ;; modify (set_inputFocused false)
    else ret tt).

(** [textInputRef.current?.focus()] *)
Definition ref_focus : M unit :=
  bind (gets textInputRef) (fun attached =>
    if attached then emit InputFocus ;; modify (set_inputFocused true)
    else ret tt).

(** [onPressCancel] *)
Definition onPressCancel (p : SearchBarProps) : M unit :=
  emit (CallOnChangeText None) ;;
  (if onCancel p then call (onCancel p) CallOnCancel else ret tt) ;;
  ref_blur.

(** [onLayout], with [width = e.nativeEvent.layout.width] *)
Definition onLayout (width : Q) : M unit :=
  modify (set_containerWidth width).

(** [onButtonLayout] *)
Definition onButtonLayout (width : Q) : M unit :=
  bind (gets cancelButtonWidth) (fun current =>
    if negb (Js.truthy_number current)
    then modify (set_cancelButtonWidth width)
    else ret tt).

(** [focus] *)
Definition focus : M unit :=
  emit PreventDefault ;;
  ref_focus.

(** [onInputFocus] *)
Definition onInputFocus (p : SearchBarProps) (e : FocusEvent) : M unit :=
  optional_call (onFocus p) (CallOnFocus e) ;;
  emit (StartTiming 1 300) ;;
  modify (fun w => set_isFocused (Reanimated.assignWithTiming 1 300 (isFocused w)) w).

(** [onInputBlur] *)
Definition onInputBlur (p : SearchBarProps) (e : FocusEvent) : M unit :=
  optional_call (onBlur p) (CallOnBlur e) ;;
  emit (StartTiming 0 300) ;;
  modify (fun w => set_isFocused (Reanimated.assignWithTiming 0 300 (isFocused w)) w).

(** The value of [borderColor]: the colour mix is left to the platform. *)
Inductive Color : Type :=
| InterpolateColor (x : Q) (input : list Q) (output : list string).

Record AnimatedStyle : Type := mkAnimatedStyle {
  width : Q;
  borderWidth : Q;
  borderColor : Color
}.

(** [animatedStyle]; [None] if [interpolate] throws. *)
Definition animatedStyle (w : World) : option AnimatedStyle :=
  let f := Reanimated.value (isFocused w) in
  let cw := containerWidth w in
  let bw := cancelButtonWidth w in
  match Reanimated.interpolate f [0; 1] [cw; cw - bw - MARGIN_LEFT_BUTTON] with
  | Some x =>
      Some {| width := x;
              borderWidth := f;
              borderColor := InterpolateColor f [0; 1] ["#fffffe"; "#fff000"]%string |}
  | None => None
  end.

Record WrapperStyle : Type := mkWrapperStyle {
  opacity : Q
}.

(** [wrapperStyle] *)
Definition wrapperStyle (w : World) : WrapperStyle :=
  {| opacity := if Js.truthy_number (containerWidth w) then 1 else 0 |}.

(** ** The rendered tree *)

(** The tree keeps the structure, the test identifiers, the accessibility
    labels, the text-field props and the wiring of handlers; static styling
    ([styles], [selectionColor], ...) is left out. *)

(** The functions a rendered element can be wired to. *)
Inductive Handler : Type :=
| HOnLayout | HOnButtonLayout | HFocus
| HOnInputFocus | HOnInputBlur
| HOnPressClear | HOnPressCancel
| HOnChangeTextProp                           (* the prop, passed through *)
| HOnSubmitEditingProp (supplied : bool).     (* the prop, passed through *)

#[local] Unset Elimination Schemes.
Inductive Element : Type :=
| View (testID : option string) (wiring : list (string * Handler))
       (children : list Element)
| AnimatedView (testID : option string) (wiring : list (string * Handler))
       (children : list Element)
| TextInput (testID accessibilityLabel : string)
       (placeholder_ defaultValue : option string) (autoFocus_ : option bool)
       (returnKeyType : string) (wiring : list (string * Handler))
| Pressable (testID accessibilityLabel : string)
       (wiring : list (string * Handler)) (children : list Element)
| Text (content : string)            (* <Text>content</Text> *)
| Raw (content : string).            (* a bare string child *)
#[local] Set Elimination Schemes.

(** [cond ? [e] : null] as a list of children. *)
Definition when (cond : bool) (e : Element) : list Element :=
  if cond then [e] else [].

(** The JSX returned by [SearchBar]. *)
Definition SearchBar (p : SearchBarProps) : Element :=
  View None []
    [ View (Some "SearchBar__container-view"%string) [("onLayout"%string, HOnLayout)]
        [ AnimatedView None []
            [ AnimatedView (Some "SearchBar__view-inputcontainer"%string)
                [("onTouchStart"%string, HFocus)]
                (TextInput "searchbar__textInput" "Enter your search word"
                   (placeholder p) (value p) (autoFocus p) "search"
                   [ ("onFocus"%string, HOnInputFocus);
                     ("onBlur"%string, HOnInputBlur);
                     ("onChangeText"%string, HOnChangeTextProp);
                     ("onSubmitEditing"%string, HOnSubmitEditingProp (onSubmitEditing p)) ]
                 :: when (Js.truthy_string (value p))
                      (Pressable "SearchBar__clear-button" "Tap to clear your search"
                         [("onPress"%string, HOnPressClear)] [Raw "x"]));
              Pressable "SearchBar__cancel-button" "Tap to cancel your search"
                [ ("onLayout"%string, HOnButtonLayout);
                  ("onPress"%string, HOnPressCancel) ]
                [Text "Cancel"] ] ] ].

(** Is an element with this test identifier present in the tree? *)
Fixpoint rendered (id : string) (e : Element) : bool :=
  let any := fix any (es : list Element) : bool :=
    match es with
    | [] => false
    | e' :: es' => rendered id e' || any es'
    end in
  match e with
  | View t _ cs | AnimatedView t _ cs =>
      match t with
      | Some t' => String.eqb t' id || any cs
      | None => any cs
      end
  | TextInput t _ _ _ _ _ _ => String.eqb t id
  | Pressable t _ _ cs => String.eqb t id || any cs
  | Text _ | Raw _ => false
  end.

Definition clear_rendered (p : SearchBarProps) : bool :=
  rendered "SearchBar__clear-button" (SearchBar p).

Definition cancel_rendered (p : SearchBarProps) : bool :=
  rendered "SearchBar__cancel-button" (SearchBar p).

(** ** Events delivered to a mounted instance *)

Inductive Event : Type :=
| Layout (width : Q)             (* layout pass of the container view *)
| ButtonLayout (width : Q)       (* layout pass of the cancel button *)
| TouchStart                     (* touch in the input's region *)
| Focused (e : FocusEvent)       (* the text field gained the focus *)
| Blurred (e : FocusEvent)       (* the text field lost the focus *)
| ChangeText (text : string)     (* the user edited the text *)
| SubmitEditing                  (* return key *)
| PressClear
| PressCancel
| Frame (dt : Q).                (* the animation scheduler advances by [dt] *)

(** The state right after mount: the hooks' initial values, the ref attached
    to the native field, the field showing [defaultValue]. *)
Definition mount (p : SearchBarProps) : World :=
  {| containerWidth := 0;
     cancelButtonWidth := 0;
     isFocused := Reanimated.useSharedValue 0;
     textInputRef := true;
     inputFocused := Js.truthy_boolean (autoFocus p);
     inputText := match value p with Some s => s | None => EmptyString end |}.

(** The native text field dispatching a submit to a prop that may be
    [undefined]: nothing is registered, nothing is called. *)
Definition native_submit (supplied : bool) : M unit :=
  optional_call supplied CallOnSubmitEditing.

(** A frame of the scheduler advances the animated cell. *)
Definition tick (dt : Q) (w : World) : World :=
  set_isFocused (Reanimated.frame dt (isFocused w)) w.

(** Route an event to the handler the tree wires it to.  A press on the
    clear affordance can only happen while it is rendered. *)
Definition dispatch (p : SearchBarProps) (ev : Event) : M unit :=
  match ev with
  | Layout x => onLayout x
  | ButtonLayout x => onButtonLayout x
  | TouchStart => focus
  | Focused e => modify (set_inputFocused true) ;; onInputFocus p e
  | Blurred e => modify (set_inputFocused false) ;; onInputBlur p e
  | ChangeText s => modify (set_inputText s) ;; emit (CallOnChangeText (Some s))
  | SubmitEditing => native_submit (onSubmitEditing p)
  | PressClear => if clear_rendered p then onPressClear p else ret tt
  | PressCancel => onPressCancel p
  | Frame dt => modify (tick dt)
  end.

(** ** The host *)

Module Host.

(** How the embedding application changes the props in reaction to what
    the component reports. *)
Definition Policy : Type := Effect -> SearchBarProps -> SearchBarProps.

(** A host that never changes the props it first passed. *)
Definition fixed : Policy := fun _ p => p.

(** A host that keeps the search text in its own state and passes it back
    as [value]: [onChangeText={setText}], [value={text}]. *)
Definition controlled : Policy :=
  fun e p =>
    match e with
    | CallOnChangeText t => set_value t p
    | _ => p
    end.

Definition react (h : Policy) (effects : list Effect) (p : SearchBarProps)
  : SearchBarProps :=
  fold_left (fun q e => h e q) effects p.

End Host.

(** A whole interaction: each event is handled under the current props, then
    the host reacts to the reported effects and re-renders. *)
Fixpoint run (h : Host.Policy) (evs : list Event) (p : SearchBarProps)
  : M SearchBarProps :=
  match evs with
  | [] => ret p
  | ev :: evs' =>
      fun w =>
        match dispatch p ev w with
        | Ok _ w1 e1 =>
            match run h evs' (Host.react h e1 p) w1 with
            | Ok q w2 e2 => Ok q w2 (e1 ++ e2)
            | Throw err => Throw err
            end
        | Throw err => Throw err
        end
  end.

(** ** Vocabulary of the properties *)

(** Props used in the concrete instances below: every optional callback
    supplied, no [value]. *)
Definition props_all_callbacks : SearchBarProps :=
  {| onCancel := true; onFocus := true; onBlur := true; onSubmitEditing := true;
     placeholder := Some "Search"%string; animationDuration := None;
     value := None; autoFocus := None |}.

(** Props with no optional callback at all. *)
Definition props_bare : SearchBarProps :=
  {| onCancel := false; onFocus := false; onBlur := false;
     onSubmitEditing := false; placeholder := None; animationDuration := None;
     value := None; autoFocus := None |}.

(** The call [onChangeText(undefined)]. *)
Definition is_change_to_absent (e : Effect) : bool :=
  match e with
  | CallOnChangeText None => true
  | _ => false
  end.

(** How often an effect of a given kind occurs in a trace. *)
Definition times (f : Effect -> bool) (effs : list Effect) : nat :=
  List.length (filter f effs).

(** Layout passes of the container view. *)
Definition is_container_layout (ev : Event) : bool :=
  match ev with
  | Layout _ => true
  | _ => false
  end.

(** Events that report no width for the cancel button: everything but a
    layout pass of the button with a non-zero width. *)
Definition reports_no_button_width (ev : Event) : bool :=
  match ev with
  | ButtonLayout x => Qeq_bool x 0
  | _ => true
  end.

(** A state with container width 300, cancel button width 80 and the given
    focus progress. *)
Definition measured_300_80 (v : Q) : World :=
  {| containerWidth := 300; cancelButtonWidth := 80;
     isFocused := {| Reanimated.value := v; Reanimated.animation := None |};
     textInputRef := true; inputFocused := false; inputText := EmptyString |}.

(** The target of the transition an event starts, if it starts one. *)
Definition transition_target (ev : Event) : option Q :=
  match ev with
  | Focused _ => Some 1
  | Blurred _ => Some 0
  | _ => None
  end.

(** Events other than a focus or blur of the text field. *)
Definition starts_no_transition (ev : Event) : bool :=
  match transition_target ev with
  | None => true
  | Some _ => false
  end.

(** The time the scheduler advances over a list of events. *)
Fixpoint frames_total (evs : list Event) : Q :=
  match evs with
  | [] => 0
  | Frame dt :: evs' => dt + frames_total evs'
  | _ :: evs' => frames_total evs'
  end.

(** [isFocused] is either at rest on [target], or on its way to [target]
    with a 300 time-unit animation that the [remaining] frame time will
    carry to its end. *)
Definition heading_to (target remaining : Q) (sv : Reanimated.SharedValue) : Prop :=
  (Reanimated.animation sv = None /\ Reanimated.value sv = target)
  \/
  (exists a,
      Reanimated.animation sv = Some a /\
      Reanimated.toValue a = target /\
      Reanimated.duration a = 300 /\
      Reanimated.elapsed a < 300 /\
      300 <= Reanimated.elapsed a + remaining).

(** Two props records that differ at most in [animationDuration]. *)
Definition same_but_animationDuration (p1 p2 : SearchBarProps) : Prop :=
  set_animationDuration None p1 = set_animationDuration None p2.

(** A host whose reactions do not depend on [animationDuration]. *)
Definition host_ignores_animationDuration (h : Host.Policy) : Prop :=
  forall e p1 p2,
    same_but_animationDuration p1 p2 ->
    same_but_animationDuration (h e p1) (h e p2).

(** The values a projection picks out of a list, in order. *)
Definition collect {A B : Type} (f : A -> option B) (l : list A) : list B :=
  flat_map (fun a => match f a with Some b => [b] | None => [] end) l.

(** The transition an effect starts: its target and its duration. *)
Definition timing_started (e : Effect) : option (Q * Q) :=
  match e with
  | StartTiming target dur => Some (target, dur)
  | _ => None
  end.

(** The transition a focus or blur event is answered with. *)
Definition transition_of (ev : Event) : option (Q * Q) :=
  match ev with
  | Focused _ => Some (1, 300)
  | Blurred _ => Some (0, 300)
  | _ => None
  end.

(** A request sent to the native field: [true] for [focus()], [false] for
    [blur()]. *)
Definition focus_request (e : Effect) : option bool :=
  match e with
  | InputFocus => Some true
  | InputBlur => Some false
  | _ => None
  end.

(** The request a touch or a press on cancel leads to. *)
Definition requests_focus (ev : Event) : option bool :=
  match ev with
  | TouchStart => Some true
  | PressCancel => Some false
  | _ => None
  end.

(** A text (not the absent value) reported through [onChangeText]. *)
Definition text_reported (e : Effect) : option string :=
  match e with
  | CallOnChangeText (Some s) => Some s
  | _ => None
  end.

(** The text an edit of the user produces. *)
Definition text_typed (ev : Event) : option string :=
  match ev with
  | ChangeText s => Some s
  | _ => None
  end.

Definition is_press_cancel (ev : Event) : bool :=
  match ev with
  | PressCancel => true
  | _ => false
  end.

Definition is_press_clear (ev : Event) : bool :=
  match ev with
  | PressClear => true
  | _ => false
  end.

(** Layout passes and frames of the scheduler. *)
Definition is_measurement_or_frame (ev : Event) : bool :=
  match ev with
  | Layout _ | ButtonLayout _ | Frame _ => true
  | _ => false
  end.

(** Events that can move [isFocused]: focus, blur and frames. *)
Definition moves_isFocused (ev : Event) : bool :=
  match ev with
  | Focused _ | Blurred _ | Frame _ => true
  | _ => false
  end.

(** Time does not run backwards: every frame advances by [dt >= 0]. *)
Definition frame_forward (ev : Event) : bool :=
  match ev with
  | Frame dt => Qle_bool 0 dt
  | _ => true
  end.

(** [isFocused] holds a value in [0,1], and an animation in flight runs
    between values in [0,1] with a positive duration. *)
Definition within_unit (sv : Reanimated.SharedValue) : Prop :=
  0 <= Reanimated.value sv <= 1 /\
  match Reanimated.animation sv with
  | None => True
  | Some a =>
      0 <= Reanimated.startValue a <= 1 /\
      0 <= Reanimated.toValue a <= 1 /\
      0 < Reanimated.duration a /\
      0 <= Reanimated.elapsed a
  end.

(** The test identifiers of a tree, in document order. *)
Fixpoint testIDs (e : Element) : list string :=
  let all := fix all (es : list Element) : list string :=
    match es with
    | [] => []
    | e' :: es' => testIDs e' ++ all es'
    end in
  match e with
  | View t _ cs | AnimatedView t _ cs =>
      match t with
      | Some t' => t' :: all cs
      | None => all cs
      end
  | TextInput t _ _ _ _ _ _ => [t]
  | Pressable t _ _ cs => t :: all cs
  | Text _ | Raw _ => []
  end.

(** The handlers wired to the element with a given test identifier. *)
Fixpoint wiring_of (id : string) (e : Element) : list (string * Handler) :=
  let all := fix all (es : list Element) : list (string * Handler) :=
    match es with
    | [] => []
    | e' :: es' => wiring_of id e' ++ all es'
    end in
  match e with
  | View t hs cs | AnimatedView t hs cs =>
      match t with
      | Some t' => (if String.eqb t' id then hs else []) ++ all cs
      | None => all cs
      end
  | TextInput t _ _ _ _ _ hs => if String.eqb t id then hs else []
  | Pressable t _ hs cs => (if String.eqb t id then hs else []) ++ all cs
  | Text _ | Raw _ => []
  end.

(** * Properties *)

(** ** Generic facts about handlers and runs *)

Ltac unfold_handlers :=
  unfold dispatch, onPressCancel, onPressClear, onInputFocus, onInputBlur,
    onLayout, onButtonLayout, focus, native_submit, ref_blur, ref_focus,
    optional_call, call, bind, emit, modify, gets, ret, throw in *.

(** No event makes a handler throw. *)
Lemma dispatch_total (p : SearchBarProps) (ev : Event) (w : World) :
  exists w' effs, dispatch p ev w = Ok tt w' effs.
Proof.
  destruct ev; unfold_handlers; simpl;
    repeat match goal with
           | |- context [if ?b then _ else _] => destruct b; simpl
           end;
    eauto.
Qed.

Lemma run_nil (h : Host.Policy) (p : SearchBarProps) (w : World) :
  run h [] p w = Ok p w [].
Proof. reflexivity. Qed.

Lemma run_cons (h : Host.Policy) ev evs p w w1 e1 :
  dispatch p ev w = Ok tt w1 e1 ->
  run h (ev :: evs) p w =
  match run h evs (Host.react h e1 p) w1 with
  | Ok q w2 e2 => Ok q w2 (e1 ++ e2)
  | Throw err => Throw err
  end.
Proof. intros H. simpl. rewrite H. reflexivity. Qed.

(** Every interaction runs to completion. *)
Lemma run_total (h : Host.Policy) (evs : list Event) :
  forall p w, exists q w' effs, run h evs p w = Ok q w' effs.
Proof.
  induction evs as [|ev evs IH]; intros p w.
  - exists p, w, []. reflexivity.
  - destruct (dispatch_total p ev w) as (w1 & e1 & Hd).
    destruct (IH (Host.react h e1 p) w1) as (q & w2 & e2 & Hr).
    exists q, w2, (e1 ++ e2).
    rewrite (run_cons h ev evs p w w1 e1 Hd), Hr. reflexivity.
Qed.

(** Running two interactions in a row. *)
Lemma run_app (h : Host.Policy) (evs1 evs2 : list Event) :
  forall p w q1 w1 e1,
    run h evs1 p w = Ok q1 w1 e1 ->
    run h (evs1 ++ evs2) p w =
    match run h evs2 q1 w1 with
    | Ok q w2 e2 => Ok q w2 (e1 ++ e2)
    | Throw err => Throw err
    end.
Proof.
  induction evs1 as [|ev evs1 IH]; intros p w q1 w1 e1 H.
  - simpl in H. unfold ret in H. inversion H; subst.
    simpl. destruct (run h evs2 q1 w1); reflexivity.
  - destruct (dispatch_total p ev w) as (wa & ea & Hd).
    rewrite (run_cons h ev evs1 p w wa ea Hd) in H.
    change ((ev :: evs1) ++ evs2) with (ev :: (evs1 ++ evs2)).
    rewrite (run_cons h ev (evs1 ++ evs2) p w wa ea Hd).
    destruct (run h evs1 (Host.react h ea p) wa) as [qb wb eb|] eqn:Hb;
      [|discriminate].
    inversion H; subst.
    rewrite (IH _ _ _ _ _ Hb).
    destruct (run h evs2 q1 w1); [|reflexivity].
    rewrite app_assoc. reflexivity.
Qed.

(** The ref, once attached, stays attached. *)
Lemma dispatch_textInputRef p ev w w' effs :
  dispatch p ev w = Ok tt w' effs -> textInputRef w' = textInputRef w.
Proof.
  destruct ev; unfold_handlers; simpl; intros H;
    repeat match type of H with
           | context [if ?b then _ else _] => destruct b eqn:?; simpl in H
           end;
    inversion H; subst; simpl; congruence.
Qed.

Lemma run_textInputRef h evs :
  forall p w q w' effs,
    run h evs p w = Ok q w' effs -> textInputRef w' = textInputRef w.
Proof.
  induction evs as [|ev evs IH]; intros p w q w' effs H.
  - inversion H; subst. reflexivity.
  - destruct (dispatch_total p ev w) as (w1 & e1 & Hd).
    rewrite (run_cons h ev evs p w w1 e1 Hd) in H.
    destruct (run h evs (Host.react h e1 p) w1) as [qb wb eb|] eqn:Hb;
      [|discriminate].
    inversion H; subst.
    rewrite (IH _ _ _ _ _ Hb). eapply dispatch_textInputRef; eauto.
Qed.

(** In every state reached from a mount, the ref is attached. *)
Lemma mounted_textInputRef h evs p q w effs :
  run h evs p (mount p) = Ok q w effs -> textInputRef w = true.
Proof. intros H. apply run_textInputRef in H. exact H. Qed.

(** ** Press handlers *)

(** C2. A press on the cancel affordance of a mounted instance (the ref is
    attached) does exactly this, in this order: it calls [onChangeText] with
    the absent value, then calls [onCancel] if and only if the host supplied
    it, then asks the text field to give up the focus; nothing else is
    emitted, and the field ends up without the focus. *)
Theorem onPressCancel_steps (p : SearchBarProps) (w : World) :
  textInputRef w = true ->
  onPressCancel p w =
  Ok tt (set_inputFocused false w)
     ([CallOnChangeText None]
        ++ (if onCancel p then [CallOnCancel] else [])
        ++ [InputBlur]).
Proof.
  intros Href. unfold_handlers.
  destruct (onCancel p); simpl; rewrite Href; reflexivity.
Qed.

Lemma onPressCancel_steps_witness :
  textInputRef (mount props_all_callbacks) = true /\
  onPressCancel props_all_callbacks (mount props_all_callbacks) =
  Ok tt (set_inputFocused false (mount props_all_callbacks))
     [CallOnChangeText None; CallOnCancel; InputBlur].
Proof.
  split.
  - reflexivity.
  - apply (onPressCancel_steps props_all_callbacks (mount props_all_callbacks)).
    reflexivity.
Defined.

(** C6. A press on the clear affordance calls [onChangeText] with the absent
    value exactly once and does nothing else: [onCancel] is not called, no
    blur is requested, no transition is started, and the state, in
    particular [isFocused] and the focus of the text field, is what it was. *)
Theorem onPressClear_only_reports_absent_text (p : SearchBarProps) (w : World) :
  exists w' effs,
    onPressClear p w = Ok tt w' effs /\
    times is_change_to_absent effs = 1%nat /\
    ~ In CallOnCancel effs /\
    ~ In InputBlur effs /\
    (forall t d, ~ In (StartTiming t d) effs) /\
    isFocused w' = isFocused w /\
    inputFocused w' = inputFocused w /\
    w' = w.
Proof.
  exists w, [CallOnChangeText None].
  repeat split; simpl; try intros t d; intuition discriminate.
Qed.

(** ** Focus and blur handlers *)

(** C5. On a focus event the handler first calls [onFocus] (when supplied)
    and only then starts the transition of [isFocused] toward 1 over 300
    time-units; on a blur event it first calls [onBlur] (when supplied) and
    only then starts the transition toward 0 over the same 300 time-units.
    The transition starts from the value [isFocused] currently has. *)
Theorem focus_blur_callback_then_timing (p : SearchBarProps) (e : FocusEvent) (w : World) :
  onInputFocus p e w =
    Ok tt (set_isFocused (Reanimated.assignWithTiming 1 300 (isFocused w)) w)
       ((if onFocus p then [CallOnFocus e] else []) ++ [StartTiming 1 300])
  /\
  onInputBlur p e w =
    Ok tt (set_isFocused (Reanimated.assignWithTiming 0 300 (isFocused w)) w)
       ((if onBlur p then [CallOnBlur e] else []) ++ [StartTiming 0 300]).
Proof.
  unfold_handlers. destruct (onFocus p), (onBlur p); split; reflexivity.
Qed.

(** ** Optional callbacks *)

(** C9. Whatever the event and the state, the handler it is routed to
    completes without throwing, and a callback the host did not supply
    ([onFocus], [onBlur], [onCancel], [onSubmitEditing]) is not called. *)
Theorem absent_callbacks_are_skipped (p : SearchBarProps) (ev : Event) (w : World) :
  exists w' effs,
    dispatch p ev w = Ok tt w' effs /\
    (onFocus p = false -> forall e, ~ In (CallOnFocus e) effs) /\
    (onBlur p = false -> forall e, ~ In (CallOnBlur e) effs) /\
    (onCancel p = false -> ~ In CallOnCancel effs) /\
    (onSubmitEditing p = false -> ~ In CallOnSubmitEditing effs).
Proof.
  destruct ev; unfold_handlers; simpl;
    repeat match goal with
           | |- context [if ?b then _ else _] => destruct b eqn:?; simpl
           end;
    do 2 eexists; (split; [reflexivity|]);
    repeat split; intros; simpl;
    intuition (try discriminate; try congruence).
Qed.

Lemma absent_callbacks_are_skipped_witness :
  exists w' effs,
    dispatch props_bare PressCancel (mount props_bare) = Ok tt w' effs /\
    (onFocus props_bare = false -> forall e, ~ In (CallOnFocus e) effs) /\
    (onBlur props_bare = false -> forall e, ~ In (CallOnBlur e) effs) /\
    (onCancel props_bare = false -> ~ In CallOnCancel effs) /\
    (onSubmitEditing props_bare = false -> ~ In CallOnSubmitEditing effs).
Proof.
  exact (absent_callbacks_are_skipped props_bare PressCancel (mount props_bare)).
Defined.

(** ** Layout capture *)

Lemma truthy_number_true (x : Q) : Js.truthy_number x = true <-> ~ x == 0.
Proof.
  unfold Js.truthy_number. rewrite negb_true_iff.
  split.
  - intros H Heq. apply Qeq_bool_iff in Heq. congruence.
  - intros H. destruct (Qeq_bool x 0) eqn:E; [|reflexivity].
    apply Qeq_bool_iff in E. contradiction.
Qed.

Lemma truthy_number_false (x : Q) : Js.truthy_number x = false <-> x == 0.
Proof.
  unfold Js.truthy_number. rewrite negb_false_iff. apply Qeq_bool_iff.
Qed.

(** Only a layout pass of the container writes [containerWidth]. *)
Lemma dispatch_containerWidth p ev w w' effs :
  is_container_layout ev = false ->
  dispatch p ev w = Ok tt w' effs ->
  containerWidth w' = containerWidth w.
Proof.
  destruct ev; simpl; try discriminate; intros _; unfold_handlers; simpl; intros H;
    repeat match type of H with
           | context [if ?b then _ else _] => destruct b eqn:?; simpl in H
           end;
    inversion H; subst; reflexivity.
Qed.

Lemma run_containerWidth h evs :
  forallb (fun ev => negb (is_container_layout ev)) evs = true ->
  forall p w q w' effs,
    run h evs p w = Ok q w' effs -> containerWidth w' = containerWidth w.
Proof.
  induction evs as [|ev evs IH]; intros Hno p w q w' effs H.
  - inversion H; subst. reflexivity.
  - simpl in Hno. apply andb_true_iff in Hno as [Hev Hno].
    apply negb_true_iff in Hev.
    destruct (dispatch_total p ev w) as (w1 & e1 & Hd).
    rewrite (run_cons h ev evs p w w1 e1 Hd) in H.
    destruct (run h evs (Host.react h e1 p) w1) as [qb wb eb|] eqn:Hb;
      [|discriminate].
    inversion H; subst.
    rewrite (IH Hno _ _ _ _ _ Hb).
    eapply dispatch_containerWidth; eauto.
Qed.

(** C7. In every state reached by a mounted instance, the wrapper has
    opacity 0 when the measured [containerWidth] is zero and opacity 1 when
    it is non-zero; as long as no layout pass of the container has happened
    the width is still zero, so the opacity is 0. *)
Theorem wrapperStyle_opacity h evs p :
  exists q w effs,
    run h evs p (mount p) = Ok q w effs /\
    (containerWidth w == 0 -> opacity (wrapperStyle w) = 0) /\
    (~ containerWidth w == 0 -> opacity (wrapperStyle w) = 1) /\
    (forallb (fun ev => negb (is_container_layout ev)) evs = true ->
     opacity (wrapperStyle w) = 0).
Proof.
  destruct (run_total h evs p (mount p)) as (q & w & effs & Hrun).
  exists q, w, effs. split; [exact Hrun|].
  unfold wrapperStyle; simpl.
  repeat split.
  - intros Hz. apply truthy_number_false in Hz. rewrite Hz. reflexivity.
  - intros Hnz. apply truthy_number_true in Hnz. rewrite Hnz. reflexivity.
  - intros Hno. rewrite (run_containerWidth h evs Hno _ _ _ _ _ Hrun).
    reflexivity.
Qed.

Lemma wrapperStyle_opacity_witness :
  exists q w effs,
    run Host.fixed [Focused 7%nat; Layout 300] props_bare (mount props_bare)
      = Ok q w effs /\
    ~ containerWidth w == 0 /\
    opacity (wrapperStyle w) = 1.
Proof.
  destruct (wrapperStyle_opacity Host.fixed [Focused 7%nat; Layout 300] props_bare)
    as (q & w & effs & Hrun & _ & Hone & _).
  exists q, w, effs.
  assert (Hnz : ~ containerWidth w == 0).
  { vm_compute in Hrun. inversion Hrun; subst. simpl. discriminate. }
  split; [exact Hrun|]. split; [exact Hnz|]. exact (Hone Hnz).
Defined.

(** Once non-zero, [cancelButtonWidth] is never written again. *)
Lemma dispatch_cancelButtonWidth_kept p ev w w' effs :
  ~ cancelButtonWidth w == 0 ->
  dispatch p ev w = Ok tt w' effs ->
  cancelButtonWidth w' = cancelButtonWidth w.
Proof.
  intros Hnz. apply truthy_number_true in Hnz.
  destruct ev; unfold_handlers; simpl; try rewrite Hnz; simpl; intros H;
    repeat match type of H with
           | context [if ?b then _ else _] => destruct b eqn:?; simpl in H
           end;
    inversion H; subst; reflexivity.
Qed.

Lemma run_cancelButtonWidth_kept h evs :
  forall p w q w' effs,
    ~ cancelButtonWidth w == 0 ->
    run h evs p w = Ok q w' effs ->
    cancelButtonWidth w' = cancelButtonWidth w.
Proof.
  induction evs as [|ev evs IH]; intros p w q w' effs Hnz H.
  - inversion H; subst. reflexivity.
  - destruct (dispatch_total p ev w) as (w1 & e1 & Hd).
    rewrite (run_cons h ev evs p w w1 e1 Hd) in H.
    destruct (run h evs (Host.react h e1 p) w1) as [qb wb eb|] eqn:Hb;
      [|discriminate].
    inversion H; subst.
    pose proof (dispatch_cancelButtonWidth_kept _ _ _ _ _ Hnz Hd) as Hk.
    rewrite <- Hk. apply (IH _ _ _ _ _ ltac:(rewrite Hk; exact Hnz) Hb).
Qed.

(** While only zero widths have been reported, the cell holds zero. *)
Lemma dispatch_cancelButtonWidth_zero p ev w w' effs :
  reports_no_button_width ev = true ->
  cancelButtonWidth w == 0 ->
  dispatch p ev w = Ok tt w' effs ->
  cancelButtonWidth w' == 0.
Proof.
  intros Hev Hz. pose proof Hz as Hz'. apply truthy_number_false in Hz'.
  destruct ev; unfold_handlers; simpl in *; try rewrite Hz'; simpl; intros H;
    repeat match type of H with
           | context [if ?b then _ else _] => destruct b eqn:?; simpl in H
           end;
    inversion H; subst; simpl; try exact Hz.
  apply Qeq_bool_iff. exact Hev.
Qed.

Lemma run_cancelButtonWidth_zero h evs :
  forallb reports_no_button_width evs = true ->
  forall p w q w' effs,
    cancelButtonWidth w == 0 ->
    run h evs p w = Ok q w' effs ->
    cancelButtonWidth w' == 0.
Proof.
  induction evs as [|ev evs IH]; intros Hall p w q w' effs Hz H.
  - inversion H; subst. exact Hz.
  - simpl in Hall. apply andb_true_iff in Hall as [Hev Hall].
    destruct (dispatch_total p ev w) as (w1 & e1 & Hd).
    rewrite (run_cons h ev evs p w w1 e1 Hd) in H.
    destruct (run h evs (Host.react h e1 p) w1) as [qb wb eb|] eqn:Hb;
      [|discriminate].
    inversion H; subst.
    apply (IH Hall _ _ _ _ _ (dispatch_cancelButtonWidth_zero _ _ _ _ _ Hev Hz Hd) Hb).
Qed.

(** C3, as stated, fails: the first layout pass of the cancel button
    reports width 0, which leaves the cell at 0; the next pass reports 90,
    and 90 is stored. *)
Lemma cancelButtonWidth_first_pass_zero_then_overwritten :
  exists q1 w1 e1 q2 w2 e2,
    run Host.fixed [ButtonLayout 0] props_bare (mount props_bare) = Ok q1 w1 e1 /\
    run Host.fixed [ButtonLayout 90] q1 w1 = Ok q2 w2 e2 /\
    cancelButtonWidth w1 = 0 /\
    cancelButtonWidth w2 = 90 /\
    cancelButtonWidth w2 <> cancelButtonWidth w1.
Proof.
  do 6 eexists.
  split; [vm_compute; reflexivity|].
  split; [vm_compute; reflexivity|].
  repeat split. discriminate.
Qed.

(** C3, amended. The cancel button width is captured from the first layout
    pass that reports a non-zero width: whatever happened before (as long as
    the button's passes reported zero) and whatever happens after, including
    passes reporting other widths, [cancelButtonWidth] is that width. *)
Theorem cancelButtonWidth_first_nonzero_wins h p before x after :
  forallb reports_no_button_width before = true ->
  ~ x == 0 ->
  exists q w effs,
    run h (before ++ ButtonLayout x :: after) p (mount p) = Ok q w effs /\
    cancelButtonWidth w = x.
Proof.
  intros Hbefore Hx.
  destruct (run_total h before p (mount p)) as (q1 & w1 & e1 & H1).
  assert (Hz : cancelButtonWidth w1 == 0).
  { apply (run_cancelButtonWidth_zero h before Hbefore p (mount p) q1 w1 e1);
      [apply Qeq_refl | exact H1]. }
  destruct (run_total h after
              (Host.react h [] q1) (set_cancelButtonWidth x w1))
    as (q2 & w2 & e2 & H2).
  exists q2, w2, (e1 ++ [] ++ e2).
  rewrite (run_app h before _ _ _ _ _ _ H1).
  assert (Hd : dispatch q1 (ButtonLayout x) w1
               = Ok tt (set_cancelButtonWidth x w1) []).
  { unfold_handlers. apply truthy_number_false in Hz. rewrite Hz. reflexivity. }
  rewrite (run_cons h _ after _ _ _ _ Hd), H2.
  split; [reflexivity|].
  apply (run_cancelButtonWidth_kept h after _ (set_cancelButtonWidth x w1) _ _ _ Hx H2).
Qed.

Lemma cancelButtonWidth_first_nonzero_wins_witness :
  forallb reports_no_button_width [Layout 300; ButtonLayout 0] = true /\
  ~ 80 == 0 /\
  exists q w effs,
    run Host.fixed ([Layout 300; ButtonLayout 0] ++ ButtonLayout 80 :: [ButtonLayout 90])
      props_bare (mount props_bare) = Ok q w effs /\
    cancelButtonWidth w = 80.
Proof.
  assert (H0 : forallb reports_no_button_width [Layout 300; ButtonLayout 0] = true)
    by reflexivity.
  assert (H80 : ~ 80 == 0) by discriminate.
  split; [exact H0|]. split; [exact H80|].
  exact (cancelButtonWidth_first_nonzero_wins Host.fixed props_bare
           [Layout 300; ButtonLayout 0] 80 [ButtonLayout 90] H0 H80).
Defined.

(** ** The animated width *)

(** On a two-point range [[x0; x1]] with [x0] and [x1] distinct,
    [interpolate] is the straight line through the two points. *)
Lemma interpolate_two_points (x x0 x1 y0 y1 : Q) :
  ~ x1 - x0 == 0 ->
  exists y,
    Reanimated.interpolate x [x0; x1] [y0; y1] = Some y /\
    y == y0 + (x - x0) / (x1 - x0) * (y1 - y0).
Proof.
  intros Hne. unfold Reanimated.interpolate, Reanimated.narrow,
    Reanimated.internalInterpolate. simpl.
  destruct (Qeq_bool (x1 - x0) 0) eqn:E.
  - apply Qeq_bool_iff in E. contradiction.
  - eexists. split; [reflexivity|]. reflexivity.
Qed.

(** The width the style gives at focus progress [v]. *)
Lemma animatedStyle_width (w : World) :
  exists st,
    animatedStyle w = Some st /\
    width st ==
      containerWidth w
      - Reanimated.value (isFocused w) * (cancelButtonWidth w + MARGIN_LEFT_BUTTON) /\
    borderWidth st = Reanimated.value (isFocused w).
Proof.
  unfold animatedStyle.
  destruct (interpolate_two_points (Reanimated.value (isFocused w)) 0 1
              (containerWidth w)
              (containerWidth w - cancelButtonWidth w - MARGIN_LEFT_BUTTON))
    as (y & Hy & Heq).
  { discriminate. }
  rewrite Hy. eexists. split; [reflexivity|]. simpl.
  split; [|reflexivity].
  rewrite Heq. field.
Qed.

(** C4. For every measured [containerWidth] and [cancelButtonWidth] and
    every focus progress [v] in [0,1], the effective width is the linear
    interpolation between [containerWidth] (at [v = 0]) and
    [containerWidth - cancelButtonWidth - 10] (at [v = 1]). *)
Theorem animatedStyle_width_interpolates (w : World) (v : Q) :
  Reanimated.value (isFocused w) = v ->
  0 <= v <= 1 ->
  exists st,
    animatedStyle w = Some st /\
    width st ==
      (1 - v) * containerWidth w
      + v * (containerWidth w - cancelButtonWidth w - 10) /\
    (v == 0 -> width st == containerWidth w) /\
    (v == 1 -> width st == containerWidth w - cancelButtonWidth w - 10).
Proof.
  intros Hv _.
  destruct (animatedStyle_width w) as (st & Hst & Hw & _).
  rewrite Hv in Hw. unfold MARGIN_LEFT_BUTTON in Hw.
  exists st. split; [exact Hst|].
  repeat split.
  - rewrite Hw. ring.
  - intros H0. rewrite Hw, H0. ring.
  - intros H1. rewrite Hw, H1. ring.
Qed.

Lemma animatedStyle_width_interpolates_witness :
  (exists st, animatedStyle (measured_300_80 0) = Some st /\ width st == 300) /\
  (exists st, animatedStyle (measured_300_80 1) = Some st /\ width st == 210).
Proof.
  split.
  - destruct (animatedStyle_width_interpolates (measured_300_80 0) 0 eq_refl)
      as (st & Hst & _ & H0 & _).
    { split; discriminate. }
    exists st. split; [exact Hst|]. apply H0. reflexivity.
  - destruct (animatedStyle_width_interpolates (measured_300_80 1) 1 eq_refl)
      as (st & Hst & _ & _ & H1).
    { split; discriminate. }
    exists st. split; [exact Hst|]. rewrite H1; reflexivity.
Defined.

(** ** Settling of the focus animation *)

(** Starting a transition replaces whatever animation was in flight: the
    new one starts from the current value, with no time elapsed. *)
Lemma transition_supersedes p ev target w :
  transition_target ev = Some target ->
  exists w' effs,
    dispatch p ev w = Ok tt w' effs /\
    isFocused w' =
      {| Reanimated.value := Reanimated.value (isFocused w);
         Reanimated.animation :=
           Some {| Reanimated.startValue := Reanimated.value (isFocused w);
                   Reanimated.toValue := target;
                   Reanimated.duration := 300;
                   Reanimated.elapsed := 0 |} |}.
Proof.
  destruct ev; simpl; try discriminate; intros H; inversion H; subst;
    unfold_handlers; simpl;
    [destruct (onFocus p) | destruct (onBlur p)];
    do 2 eexists; split; reflexivity.
Qed.

Lemma frame_heading_to target dt remaining sv :
  heading_to target (dt + remaining) sv ->
  heading_to target remaining (Reanimated.frame dt sv).
Proof.
  intros [[Hnone Hval] | (a & Ha & Hto & Hdur & Hlt & Hge)];
    unfold Reanimated.frame.
  - rewrite Hnone. left. split; assumption.
  - rewrite Ha, Hdur.
    destruct (Qle_bool 300 (Reanimated.elapsed a + dt)) eqn:E.
    + left. split; [reflexivity | exact Hto].
    + right. eexists. split; [reflexivity|]. simpl.
      repeat split; try assumption.
      * destruct (Qlt_le_dec (Reanimated.elapsed a + dt) 300) as [Hl | Hl];
          [exact Hl|].
        apply Qle_bool_iff in Hl. congruence.
      * lra.
Qed.

Lemma heading_to_remaining target r1 r2 sv :
  r1 == r2 -> heading_to target r1 sv -> heading_to target r2 sv.
Proof.
  intros Hr [Hs | (a & Ha & Hto & Hdur & Hlt & Hge)].
  - left. exact Hs.
  - right. exists a. repeat split; try assumption. rewrite <- Hr. exact Hge.
Qed.

Lemma dispatch_heading_to p ev w w' effs target remaining :
  starts_no_transition ev = true ->
  heading_to target (frames_total [ev] + remaining) (isFocused w) ->
  dispatch p ev w = Ok tt w' effs ->
  heading_to target remaining (isFocused w').
Proof.
  intros Hev Hinv.
  destruct ev; try discriminate Hev; simpl in Hinv;
    try (apply (heading_to_remaining target _ remaining) in Hinv;
         [|apply Qplus_0_l];
         unfold_handlers; simpl; intros H;
         repeat match type of H with
                | context [if ?b then _ else _] => destruct b eqn:?; simpl in H
                end;
         inversion H; subst; exact Hinv).
  unfold_handlers. intros H. inversion H; subst. simpl.
  apply frame_heading_to.
  apply (heading_to_remaining target (dt + 0 + remaining)); [ring | exact Hinv].
Qed.

Lemma run_heading_to h evs :
  forallb starts_no_transition evs = true ->
  forall p w q w' effs target,
    heading_to target (frames_total evs) (isFocused w) ->
    run h evs p w = Ok q w' effs ->
    Reanimated.animation (isFocused w') = None /\
    Reanimated.value (isFocused w') = target.
Proof.
  induction evs as [|ev evs IH]; intros Hall p w q w' effs target Hinv H.
  - inversion H; subst. simpl in Hinv.
    destruct Hinv as [Hs | (a & Ha & Hto & Hdur & Hlt & Hge)];
      [exact Hs | exfalso; lra].
  - simpl in Hall. apply andb_true_iff in Hall as [Hev Hall].
    destruct (dispatch_total p ev w) as (w1 & e1 & Hd).
    rewrite (run_cons h ev evs p w w1 e1 Hd) in H.
    destruct (run h evs (Host.react h e1 p) w1) as [qb wb eb|] eqn:Hb;
      [|discriminate].
    inversion H; subst.
    apply (IH Hall _ _ _ _ _ target) with (2 := Hb).
    apply (dispatch_heading_to p ev w w1 e1 target (frames_total evs) Hev);
      [|exact Hd].
    apply (heading_to_remaining target (frames_total (ev :: evs))); [|exact Hinv].
    destruct ev; simpl; ring.
Qed.

(** C8. Take any history of events, then a focus or blur event, then any
    events that start no further transition and over which the scheduler
    advances at least 300 time-units.  The interaction completes with
    [isFocused] at rest on the target of that last transition: 0 after a
    blur, the effective width being the full [containerWidth]; 1 after a
    focus, the effective width being
    [containerWidth - cancelButtonWidth - 10].  The history is arbitrary, so
    a transition still in flight when the last one starts has no influence:
    it is superseded. *)
Theorem isFocused_settles_on_last_transition h p w history last target tail :
  transition_target last = Some target ->
  forallb starts_no_transition tail = true ->
  300 <= frames_total tail ->
  exists q w' effs st,
    run h (history ++ last :: tail) p w = Ok q w' effs /\
    Reanimated.value (isFocused w') = target /\
    Reanimated.animation (isFocused w') = None /\
    animatedStyle w' = Some st /\
    (target = 0 -> width st == containerWidth w') /\
    (target = 1 -> width st == containerWidth w' - cancelButtonWidth w' - 10) /\
    (target = 0 \/ target = 1).
Proof.
  intros Hlast Htail Htime.
  destruct (run_total h history p w) as (q1 & w1 & e1 & H1).
  destruct (transition_supersedes q1 last target w1 Hlast)
    as (w2 & e2 & Hd & Hfoc).
  destruct (run_total h tail (Host.react h e2 q1) w2) as (q3 & w3 & e3 & H3).
  assert (Hrest : Reanimated.animation (isFocused w3) = None /\
                  Reanimated.value (isFocused w3) = target).
  { apply (run_heading_to h tail Htail _ _ _ _ _ target) with (2 := H3).
    right. eexists. rewrite Hfoc. simpl. split; [reflexivity|]. simpl.
    repeat split; lra. }
  destruct Hrest as [Hnone Hval].
  destruct (animatedStyle_width w3) as (st & Hst & Hw & _).
  rewrite Hval in Hw. unfold MARGIN_LEFT_BUTTON in Hw.
  exists q3, w3, (e1 ++ e2 ++ e3), st.
  rewrite (run_app h history _ _ _ _ _ _ H1).
  rewrite (run_cons h last tail _ _ _ _ Hd), H3.
  repeat split; try assumption.
  - intros ->. rewrite Hw. ring.
  - intros ->. rewrite Hw. ring.
  - destruct last; simpl in Hlast; try discriminate;
      inversion Hlast; subst; [right | left]; reflexivity.
Qed.

Lemma isFocused_settles_on_last_transition_witness :
  exists q w' effs st,
    run Host.fixed
      ([Layout 300; ButtonLayout 80; Focused 1%nat; Frame 100]
         ++ Blurred 2%nat :: [Frame 50; Focused 3%nat; Frame 120]
         ++ Focused 4%nat :: [Frame 100; ChangeText "a"; Frame 100; Frame 150])
      props_all_callbacks (mount props_all_callbacks) = Ok q w' effs /\
    Reanimated.value (isFocused w') = 1 /\
    animatedStyle w' = Some st /\
    width st == 210.
Proof.
  destruct (isFocused_settles_on_last_transition Host.fixed props_all_callbacks
              (mount props_all_callbacks)
              [Layout 300; ButtonLayout 80; Focused 1%nat; Frame 100;
               Blurred 2%nat; Frame 50; Focused 3%nat; Frame 120]
              (Focused 4%nat) 1
              [Frame 100; ChangeText "a"; Frame 100; Frame 150]
              eq_refl eq_refl)
    as (q & w' & effs & st & Hrun & Hval & _ & Hst & _ & Hone & _).
  { vm_compute. discriminate. }
  exists q, w', effs, st.
  split; [exact Hrun|]. split; [exact Hval|]. split; [exact Hst|].
  rewrite (Hone eq_refl).
  vm_compute in Hrun. inversion Hrun; subst. reflexivity.
Defined.

(** ** The clear affordance *)

Lemma clear_rendered_truthy_value (p : SearchBarProps) :
  clear_rendered p = Js.truthy_string (value p).
Proof.
  unfold clear_rendered, SearchBar.
  destruct (value p) as [[|c s]|]; reflexivity.
Qed.

(** C1, as stated, fails: with [value] unset and a host that leaves it
    unset, the user types "abc"; the text of the field is non-empty and the
    clear affordance is still not rendered. *)
Lemma clear_absent_while_text_typed :
  exists q w effs,
    run Host.fixed [ChangeText "abc"] props_bare (mount props_bare) = Ok q w effs /\
    value props_bare = None /\
    inputText w = "abc"%string /\
    inputText w <> EmptyString /\
    clear_rendered q = false.
Proof.
  do 3 eexists. split; [vm_compute; reflexivity|].
  repeat split; try reflexivity. discriminate.
Qed.

(** C1, amended. The clear affordance is rendered exactly when the [value]
    prop of that render is a non-empty string.  When the host passes the
    text reported through [onChangeText] back as [value], then starting
    from [value] unset the affordance is absent, it is present after a
    non-empty text has been typed, and after a press on it (which reports
    the absent value) it is absent again. *)
Theorem clear_rendered_follows_value (p : SearchBarProps) (text : string) :
  value p = None ->
  text <> EmptyString ->
  (forall q, clear_rendered q = true <->
             exists s, value q = Some s /\ s <> EmptyString) /\
  clear_rendered p = false /\
  exists q1 w1 e1,
    run Host.controlled [ChangeText text] p (mount p) = Ok q1 w1 e1 /\
    value q1 = Some text /\
    clear_rendered q1 = true /\
    exists q2 w2 e2,
      run Host.controlled [PressClear] q1 w1 = Ok q2 w2 e2 /\
      e2 = [CallOnChangeText None] /\
      value q2 = None /\
      clear_rendered q2 = false.
Proof.
  intros Hunset Htext.
  split.
  { intros q. rewrite clear_rendered_truthy_value.
    destruct (value q) as [[|c s]|]; simpl; split; intros H;
      try discriminate; try reflexivity.
    - destruct H as (s & Hs & Hne). inversion Hs; subst. contradiction.
    - eexists. split; [reflexivity | discriminate].
    - destruct H as (s & Hs & _). discriminate. }
  split.
  { rewrite clear_rendered_truthy_value, Hunset. reflexivity. }
  assert (Hshown : clear_rendered (set_value (Some text) p) = true).
  { rewrite clear_rendered_truthy_value. simpl.
    destruct text; [contradiction | reflexivity]. }
  exists (set_value (Some text) p), (set_inputText text (mount p)),
    [CallOnChangeText (Some text)].
  split; [reflexivity|]. split; [reflexivity|]. split; [exact Hshown|].
  exists (set_value None (set_value (Some text) p)),
    (set_inputText text (mount p)), [CallOnChangeText None].
  split.
  { simpl. rewrite Hshown. reflexivity. }
  split; [reflexivity|]. split; [reflexivity|].
  rewrite clear_rendered_truthy_value. reflexivity.
Qed.

Lemma clear_rendered_follows_value_witness :
  value props_bare = None /\
  "abc"%string <> EmptyString /\
  exists q1 w1 e1,
    run Host.controlled [ChangeText "abc"] props_bare (mount props_bare)
      = Ok q1 w1 e1 /\
    clear_rendered q1 = true /\
    exists q2 w2 e2,
      run Host.controlled [PressClear] q1 w1 = Ok q2 w2 e2 /\
      clear_rendered q2 = false.
Proof.
  assert (Hv : value props_bare = None) by reflexivity.
  assert (Ht : "abc"%string <> EmptyString) by discriminate.
  split; [exact Hv|]. split; [exact Ht|].
  destruct (clear_rendered_follows_value props_bare "abc" Hv Ht)
    as (_ & _ & q1 & w1 & e1 & H1 & _ & Hshown & q2 & w2 & e2 & H2 & _ & _ & Hgone).
  exists q1, w1, e1. split; [exact H1|]. split; [exact Hshown|].
  exists q2, w2, e2. split; [exact H2 | exact Hgone].
Defined.

(** ** The unused [animationDuration] prop *)

Lemma dispatch_same_but_animationDuration p1 p2 ev w :
  same_but_animationDuration p1 p2 ->
  dispatch p1 ev w = dispatch p2 ev w.
Proof.
  unfold same_but_animationDuration, set_animationDuration.
  destruct p1, p2; simpl. intros H. inversion H; subst.
  destruct ev; reflexivity.
Qed.

Lemma SearchBar_same_but_animationDuration p1 p2 :
  same_but_animationDuration p1 p2 -> SearchBar p1 = SearchBar p2.
Proof.
  unfold same_but_animationDuration, set_animationDuration.
  destruct p1, p2; simpl. intros H. inversion H; subst. reflexivity.
Qed.

Lemma react_same_but_animationDuration h effs :
  host_ignores_animationDuration h ->
  forall p1 p2,
    same_but_animationDuration p1 p2 ->
    same_but_animationDuration (Host.react h effs p1) (Host.react h effs p2).
Proof.
  intros Hh. unfold Host.react.
  induction effs as [|e effs IH]; intros p1 p2 H; simpl.
  - exact H.
  - apply IH. apply Hh. exact H.
Qed.

(** Every transition a handler starts lasts 300 time-units. *)
Lemma dispatch_timing_300 p ev w w' effs :
  dispatch p ev w = Ok tt w' effs ->
  forall t d, In (StartTiming t d) effs -> d = 300.
Proof.
  destruct ev; unfold_handlers; simpl; intros H;
    repeat match type of H with
           | context [if ?b then _ else _] => destruct b eqn:?; simpl in H
           end;
    inversion H; subst; intros t d Hin; simpl in Hin;
    intuition (try discriminate; try congruence).
Qed.

Lemma controlled_ignores_animationDuration :
  host_ignores_animationDuration Host.controlled.
Proof.
  intros e p1 p2. unfold same_but_animationDuration, set_animationDuration.
  destruct p1, p2, e; simpl; intros H; inversion H; subst; reflexivity.
Qed.

(** C10. Two runs of the widget over the same events, from the same state,
    with props that differ only in [animationDuration] (and a host that does
    not look at it) produce the same state, hence the same animated values
    and styles, the same effects in the same order and the same rendered
    tree; every transition started along the way lasts 300 time-units. *)
Theorem animationDuration_has_no_effect h evs :
  host_ignores_animationDuration h ->
  forall p1 p2 w,
    same_but_animationDuration p1 p2 ->
    exists q1 q2 w' effs,
      run h evs p1 w = Ok q1 w' effs /\
      run h evs p2 w = Ok q2 w' effs /\
      same_but_animationDuration q1 q2 /\
      SearchBar q1 = SearchBar q2 /\
      (forall t d, In (StartTiming t d) effs -> d = 300).
Proof.
  intros Hh.
  induction evs as [|ev evs IH]; intros p1 p2 w Hsame.
  - exists p1, p2, w, []. repeat split; try assumption.
    + apply SearchBar_same_but_animationDuration; exact Hsame.
    + intros t d [].
  - destruct (dispatch_total p1 ev w) as (w1 & e1 & Hd1).
    pose proof Hd1 as Hd2.
    rewrite (dispatch_same_but_animationDuration p1 p2 ev w Hsame) in Hd2.
    destruct (IH (Host.react h e1 p1) (Host.react h e1 p2) w1
                (react_same_but_animationDuration h e1 Hh p1 p2 Hsame))
      as (q1 & q2 & w' & effs & H1 & H2 & Hq & Htree & H300).
    exists q1, q2, w', (e1 ++ effs).
    rewrite (run_cons h ev evs p1 w w1 e1 Hd1), H1.
    rewrite (run_cons h ev evs p2 w w1 e1 Hd2), H2.
    repeat split; try assumption.
    intros t d Hin. apply in_app_or in Hin as [Hin | Hin].
    + eapply dispatch_timing_300; eauto.
    + eapply H300; eauto.
Qed.

Lemma animationDuration_has_no_effect_witness :
  exists q1 q2 w' effs,
    run Host.controlled [Focused 1%nat; Frame 100; ChangeText "abc"; PressCancel]
      (set_animationDuration (Some 1000) props_all_callbacks)
      (mount props_all_callbacks) = Ok q1 w' effs /\
    run Host.controlled [Focused 1%nat; Frame 100; ChangeText "abc"; PressCancel]
      (set_animationDuration (Some 50) props_all_callbacks)
      (mount props_all_callbacks) = Ok q2 w' effs /\
    In (StartTiming 1 300) effs /\
    SearchBar q1 = SearchBar q2.
Proof.
  destruct (animationDuration_has_no_effect Host.controlled
              [Focused 1%nat; Frame 100; ChangeText "abc"; PressCancel]
              controlled_ignores_animationDuration
              (set_animationDuration (Some 1000) props_all_callbacks)
              (set_animationDuration (Some 50) props_all_callbacks)
              (mount props_all_callbacks) eq_refl)
    as (q1 & q2 & w' & effs & H1 & H2 & _ & Htree & _).
  exists q1, q2, w', effs.
  split; [exact H1|]. split; [exact H2|]. split; [|exact Htree].
  vm_compute in H1. inversion H1; subst. simpl. tauto.
Defined.

(** * Further properties of the component *)

(** ** What a whole interaction reports *)

Lemma collect_app {A B : Type} (f : A -> option B) (l1 l2 : list A) :
  collect f (l1 ++ l2) = collect f l1 ++ collect f l2.
Proof. unfold collect. apply flat_map_app. Qed.

(** If every single event, handled in a state satisfying [Inv], emits the
    effects its projection announces and keeps [Inv], so does a run. *)
Lemma run_collect {B : Type} (pe : Effect -> option B) (pv : Event -> option B)
      (Inv : World -> Prop) (h : Host.Policy) :
  (forall p ev w w' effs,
      Inv w -> dispatch p ev w = Ok tt w' effs ->
      Inv w' /\ collect pe effs = collect pv [ev]) ->
  forall evs p w q w' effs,
    Inv w -> run h evs p w = Ok q w' effs ->
    collect pe effs = collect pv evs.
Proof.
  intros Hstep.
  induction evs as [|ev evs IH]; intros p w q w' effs Hinv H.
  - inversion H; subst. reflexivity.
  - destruct (dispatch_total p ev w) as (w1 & e1 & Hd).
    rewrite (run_cons h ev evs p w w1 e1 Hd) in H.
    destruct (run h evs (Host.react h e1 p) w1) as [qb wb eb|] eqn:Hb;
      [|discriminate].
    inversion H; subst.
    destruct (Hstep p ev w w1 e1 Hinv Hd) as [Hinv1 Hone].
    rewrite collect_app, Hone, (IH _ _ _ _ _ Hinv1 Hb).
    change (ev :: evs) with ([ev] ++ evs). rewrite collect_app. reflexivity.
Qed.

(** Case analysis on the handler an event is routed to. *)
Ltac by_handler H :=
  unfold_handlers; simpl in *;
  repeat match type of H with
         | context [if ?b then _ else _] => destruct b eqn:?; simpl in H
         end;
  inversion H; subst.

(** The transitions started during an interaction are, in order, exactly
    the answers to its focus and blur events: toward 1 for a focus, toward
    0 for a blur, each over 300 time-units.  No other event starts one. *)
Theorem transitions_mirror_focus_events h evs p w :
  exists q w' effs,
    run h evs p w = Ok q w' effs /\
    collect timing_started effs = collect transition_of evs.
Proof.
  destruct (run_total h evs p w) as (q & w' & effs & Hrun).
  exists q, w', effs. split; [exact Hrun|].
  apply (run_collect timing_started transition_of (fun _ => True) h)
    with (3 := Hrun); [|exact I].
  intros p0 ev w0 w1 e1 _ H. split; [exact I|].
  destruct ev; by_handler H; reflexivity.
Qed.

(** On a mounted instance the requests sent to the native field are, in
    order, exactly one [focus()] per touch in the input's region and one
    [blur()] per press on cancel. *)
Theorem focus_requests_mirror_touches_and_cancels h evs p w :
  textInputRef w = true ->
  exists q w' effs,
    run h evs p w = Ok q w' effs /\
    collect focus_request effs = collect requests_focus evs.
Proof.
  intros Href.
  destruct (run_total h evs p w) as (q & w' & effs & Hrun).
  exists q, w', effs. split; [exact Hrun|].
  apply (run_collect focus_request requests_focus
           (fun w => textInputRef w = true) h) with (3 := Hrun); [|exact Href].
  intros p0 ev w0 w1 e1 Hr H. split.
  - rewrite (dispatch_textInputRef _ _ _ _ _ H). exact Hr.
  - destruct ev; by_handler H; try reflexivity; congruence.
Qed.

Lemma focus_requests_mirror_touches_and_cancels_witness :
  textInputRef (mount props_all_callbacks) = true /\
  exists q w' effs,
    run Host.controlled [TouchStart; Focused 1%nat; ChangeText "abc"; PressCancel]
      props_all_callbacks (mount props_all_callbacks) = Ok q w' effs /\
    collect focus_request effs = [true; false].
Proof.
  split; [reflexivity|].
  exact (focus_requests_mirror_touches_and_cancels Host.controlled
           [TouchStart; Focused 1%nat; ChangeText "abc"; PressCancel]
           props_all_callbacks (mount props_all_callbacks) eq_refl).
Defined.

(** Every text the user types is reported through [onChangeText] verbatim
    (the empty string as the empty string, not as the absent value), in
    order, and nothing else ever reports a text: clear and cancel report
    the absent value only. *)
Theorem typed_texts_are_reported_verbatim h evs p w :
  exists q w' effs,
    run h evs p w = Ok q w' effs /\
    collect text_reported effs = collect text_typed evs.
Proof.
  destruct (run_total h evs p w) as (q & w' & effs & Hrun).
  exists q, w', effs. split; [exact Hrun|].
  apply (run_collect text_reported text_typed (fun _ => True) h)
    with (3 := Hrun); [|exact I].
  intros p0 ev w0 w1 e1 _ H. split; [exact I|].
  destruct ev; by_handler H; reflexivity.
Qed.

(** ** What the state cells depend on *)

(** [containerWidth] is the width reported by the latest layout pass of the
    container, whatever happened before and whatever other events follow;
    the wrapper's opacity follows it, so a pass reporting zero hides the
    widget again. *)
Theorem containerWidth_is_latest_layout h p w history x tail :
  forallb (fun ev => negb (is_container_layout ev)) tail = true ->
  exists q w' effs,
    run h (history ++ Layout x :: tail) p w = Ok q w' effs /\
    containerWidth w' = x /\
    (x == 0 -> opacity (wrapperStyle w') = 0) /\
    (~ x == 0 -> opacity (wrapperStyle w') = 1).
Proof.
  intros Htail.
  destruct (run_total h history p w) as (q1 & w1 & e1 & H1).
  destruct (run_total h tail (Host.react h [] q1) (set_containerWidth x w1))
    as (q2 & w2 & e2 & H2).
  exists q2, w2, (e1 ++ [] ++ e2).
  rewrite (run_app h history _ _ _ _ _ _ H1).
  assert (Hd : dispatch q1 (Layout x) w1 = Ok tt (set_containerWidth x w1) [])
    by reflexivity.
  rewrite (run_cons h _ tail _ _ _ _ Hd), H2.
  pose proof (run_containerWidth h tail Htail _ _ _ _ _ H2) as Hcw.
  simpl in Hcw.
  split; [reflexivity|]. split; [exact Hcw|].
  unfold wrapperStyle; simpl; rewrite Hcw. split.
  - intros Hz. apply truthy_number_false in Hz. rewrite Hz. reflexivity.
  - intros Hnz. apply truthy_number_true in Hnz. rewrite Hnz. reflexivity.
Qed.

Lemma containerWidth_is_latest_layout_witness :
  exists q w' effs,
    run Host.fixed ([Layout 300; Focused 1%nat] ++ Layout 0 :: [Frame 400; ButtonLayout 80])
      props_bare (mount props_bare) = Ok q w' effs /\
    containerWidth w' = 0 /\
    opacity (wrapperStyle w') = 0.
Proof.
  destruct (containerWidth_is_latest_layout Host.fixed props_bare (mount props_bare)
              [Layout 300; Focused 1%nat] 0 [Frame 400; ButtonLayout 80] eq_refl)
    as (q & w' & effs & Hrun & Hcw & Hzero & _).
  exists q, w', effs. split; [exact Hrun|]. split; [exact Hcw|].
  apply Hzero. reflexivity.
Defined.

(** Only focus events, blur events and frames move [isFocused]: touches,
    typing, submit, layout passes and presses on clear or cancel leave both
    its value and the animation in flight as they are.  In particular a
    press on cancel does not itself start the blur transition. *)
Theorem isFocused_moved_only_by_focus_blur_frame h evs p w :
  forallb (fun ev => negb (moves_isFocused ev)) evs = true ->
  exists q w' effs,
    run h evs p w = Ok q w' effs /\
    isFocused w' = isFocused w.
Proof.
  intros Hall.
  destruct (run_total h evs p w) as (q & w' & effs & Hrun).
  exists q, w', effs. split; [exact Hrun|].
  revert p w q w' effs Hrun.
  induction evs as [|ev evs IH]; intros p w q w' effs H.
  - inversion H; subst. reflexivity.
  - simpl in Hall. apply andb_true_iff in Hall as [Hev Hall].
    apply negb_true_iff in Hev.
    destruct (dispatch_total p ev w) as (w1 & e1 & Hd).
    rewrite (run_cons h ev evs p w w1 e1 Hd) in H.
    destruct (run h evs (Host.react h e1 p) w1) as [qb wb eb|] eqn:Hb;
      [|discriminate].
    inversion H; subst.
    rewrite (IH Hall _ _ _ _ _ Hb).
    destruct ev; try discriminate Hev; by_handler Hd; reflexivity.
Qed.

Lemma isFocused_moved_only_by_focus_blur_frame_witness :
  exists q w' effs,
    run Host.controlled [TouchStart; ChangeText "abc"; Layout 300; PressClear;
                         SubmitEditing; PressCancel]
      props_all_callbacks (measured_300_80 (1 # 2)) = Ok q w' effs /\
    isFocused w' = isFocused (measured_300_80 (1 # 2)).
Proof.
  exact (isFocused_moved_only_by_focus_blur_frame Host.controlled
           [TouchStart; ChangeText "abc"; Layout 300; PressClear;
            SubmitEditing; PressCancel]
           props_all_callbacks (measured_300_80 (1 # 2)) eq_refl).
Defined.

Lemma dispatch_world_independent p1 p2 ev w w1 w2 e1 e2 :
  dispatch p1 ev w = Ok tt w1 e1 ->
  dispatch p2 ev w = Ok tt w2 e2 ->
  w1 = w2.
Proof.
  intros H1 H2.
  destruct ev; unfold_handlers; simpl in *;
    repeat match type of H1 with
           | context [if ?b then _ else _] => destruct b eqn:?; simpl in H1
           end;
    repeat match type of H2 with
           | context [if ?b then _ else _] => destruct b eqn:?; simpl in H2
           end;
    inversion H1; inversion H2; subst; congruence.
Qed.

Lemma run_world_independent h1 h2 evs :
  forall p1 p2 w,
  exists q1 q2 w' e1 e2,
    run h1 evs p1 w = Ok q1 w' e1 /\
    run h2 evs p2 w = Ok q2 w' e2.
Proof.
  induction evs as [|ev evs IH]; intros p1 p2 w.
  - exists p1, p2, w, [], []. split; reflexivity.
  - destruct (dispatch_total p1 ev w) as (w1 & e1 & Hd1).
    destruct (dispatch_total p2 ev w) as (w2 & e2 & Hd2).
    pose proof (dispatch_world_independent _ _ _ _ _ _ _ _ Hd1 Hd2) as Hw.
    subst w2.
    destruct (IH (Host.react h1 e1 p1) (Host.react h2 e2 p2) w1)
      as (q1 & q2 & w' & e1' & e2' & H1 & H2).
    exists q1, q2, w', (e1 ++ e1'), (e2 ++ e2').
    rewrite (run_cons h1 ev evs p1 w w1 e1 Hd1), H1.
    rewrite (run_cons h2 ev evs p2 w w1 e2 Hd2), H2.
    split; reflexivity.
Qed.

(** The cells the component owns (the two measured widths, the focus
    progress and its animation) depend, after an interaction, on the events
    and the initial state only: neither the props (which callbacks are
    supplied, [value], [placeholder], ...) nor the host's reactions
    influence them, and so the two animated styles are the same as well. *)
Theorem cells_independent_of_props_and_host h1 h2 evs p1 p2 w :
  exists q1 q2 w1 w2 e1 e2,
    run h1 evs p1 w = Ok q1 w1 e1 /\
    run h2 evs p2 w = Ok q2 w2 e2 /\
    containerWidth w1 = containerWidth w2 /\
    cancelButtonWidth w1 = cancelButtonWidth w2 /\
    isFocused w1 = isFocused w2 /\
    animatedStyle w1 = animatedStyle w2 /\
    wrapperStyle w1 = wrapperStyle w2.
Proof.
  destruct (run_world_independent h1 h2 evs p1 p2 w)
    as (q1 & q2 & w' & e1 & e2 & H1 & H2).
  exists q1, q2, w', w', e1, e2. repeat split; assumption.
Qed.

(** Layout passes and frames are silent: an interaction made of them only
    calls no callback, sends no request to the text field and starts no
    transition, and the host, hearing nothing, leaves the props alone. *)
Theorem measurement_and_frames_are_silent h evs p w :
  forallb is_measurement_or_frame evs = true ->
  exists w', run h evs p w = Ok p w' [].
Proof.
  revert p w.
  induction evs as [|ev evs IH]; intros p w Hall.
  - exists w. reflexivity.
  - simpl in Hall. apply andb_true_iff in Hall as [Hev Hall].
    destruct (dispatch_total p ev w) as (w1 & e1 & Hd).
    assert (He : e1 = []).
    { destruct ev; try discriminate Hev; by_handler Hd; reflexivity. }
    subst e1.
    destruct (IH p w1 Hall) as (w' & Hrun).
    exists w'. rewrite (run_cons h ev evs p w w1 [] Hd). simpl. rewrite Hrun.
    reflexivity.
Qed.

Lemma measurement_and_frames_are_silent_witness :
  exists w',
    run Host.controlled [Layout 300; ButtonLayout 80; Frame 16; ButtonLayout 90]
      props_all_callbacks (mount props_all_callbacks)
    = Ok props_all_callbacks w' [].
Proof.
  exact (measurement_and_frames_are_silent Host.controlled
           [Layout 300; ButtonLayout 80; Frame 16; ButtonLayout 90]
           props_all_callbacks (mount props_all_callbacks) eq_refl).
Defined.

(** As long as no layout pass of the cancel button has reported a non-zero
    width, [cancelButtonWidth] is still zero, and the animated width only
    makes room for the margin: [containerWidth - isFocused * 10]. *)
Theorem cancelButtonWidth_zero_until_measured h evs p :
  forallb reports_no_button_width evs = true ->
  exists q w effs st,
    run h evs p (mount p) = Ok q w effs /\
    cancelButtonWidth w == 0 /\
    animatedStyle w = Some st /\
    width st == containerWidth w - Reanimated.value (isFocused w) * 10.
Proof.
  intros Hall.
  destruct (run_total h evs p (mount p)) as (q & w & effs & Hrun).
  assert (Hz : cancelButtonWidth w == 0).
  { apply (run_cancelButtonWidth_zero h evs Hall p (mount p) q w effs);
      [apply Qeq_refl | exact Hrun]. }
  destruct (animatedStyle_width w) as (st & Hst & Hw & _).
  exists q, w, effs, st.
  split; [exact Hrun|]. split; [exact Hz|]. split; [exact Hst|].
  rewrite Hw, Hz. unfold MARGIN_LEFT_BUTTON. ring.
Qed.

Lemma cancelButtonWidth_zero_until_measured_witness :
  exists q w effs st,
    run Host.fixed [Layout 300; ButtonLayout 0; Focused 1%nat; Frame 300]
      props_bare (mount props_bare) = Ok q w effs /\
    cancelButtonWidth w == 0 /\
    animatedStyle w = Some st /\
    width st == 290.
Proof.
  destruct (cancelButtonWidth_zero_until_measured Host.fixed
              [Layout 300; ButtonLayout 0; Focused 1%nat; Frame 300]
              props_bare eq_refl)
    as (q & w & effs & st & Hrun & Hz & Hst & Hw).
  exists q, w, effs, st.
  split; [exact Hrun|]. split; [exact Hz|]. split; [exact Hst|].
  rewrite Hw. vm_compute in Hrun. inversion Hrun; subst. reflexivity.
Defined.

(** ** The text-input ref *)

(** While the ref is not attached, no handler touches the text field: a
    touch only prevents the default, a press on cancel still reports the
    absent text (and calls [onCancel] when supplied) but requests no blur,
    and no event makes a handler throw. *)
Theorem detached_ref_is_skipped p ev w :
  textInputRef w = false ->
  exists w' effs,
    dispatch p ev w = Ok tt w' effs /\
    ~ In InputFocus effs /\
    ~ In InputBlur effs /\
    (ev = TouchStart -> effs = [PreventDefault] /\ w' = w) /\
    (ev = PressCancel ->
     effs = CallOnChangeText None :: (if onCancel p then [CallOnCancel] else [])
     /\ w' = w).
Proof.
  intros Href.
  destruct (dispatch_total p ev w) as (w' & effs & Hd).
  exists w', effs. split; [exact Hd|].
  destruct ev; unfold_handlers; simpl in Hd;
    repeat match type of Hd with
           | context [if ?b then _ else _] => destruct b eqn:?; simpl in Hd
           end;
    try congruence; inversion Hd; subst; simpl;
    repeat split; try discriminate; try reflexivity;
    intuition (try discriminate; try congruence).
Qed.

Lemma detached_ref_is_skipped_witness :
  exists w' effs,
    dispatch props_all_callbacks PressCancel
      (set_inputFocused true
         {| containerWidth := 300; cancelButtonWidth := 80;
            isFocused := Reanimated.useSharedValue 1;
            textInputRef := false; inputFocused := true;
            inputText := "abc" |}) = Ok tt w' effs /\
    effs = [CallOnChangeText None; CallOnCancel] /\
    inputFocused w' = true.
Proof.
  destruct (detached_ref_is_skipped props_all_callbacks PressCancel
              (set_inputFocused true
                 {| containerWidth := 300; cancelButtonWidth := 80;
                    isFocused := Reanimated.useSharedValue 1;
                    textInputRef := false; inputFocused := true;
                    inputText := "abc" |}) eq_refl)
    as (w' & effs & Hd & _ & _ & _ & Hcancel).
  destruct (Hcancel eq_refl) as [Heffs Hw].
  exists w', effs. split; [exact Hd|]. split; [exact Heffs|].
  rewrite Hw. reflexivity.
Defined.

(** ** Bounds of the focus progress *)

(** The default easing maps [0,1] into [0,1]. *)
Lemma easing_unit (t : Q) :
  0 <= t -> t <= 1 -> 0 <= Reanimated.easing t <= 1.
Proof.
  intros H0 H1.
  unfold Reanimated.easing, Reanimated.inOut, Reanimated.quad.
  destruct (Qlt_le_dec t (1 # 2)) as [Hlt | Hge].
  - assert (E : t * 2 * (t * 2) / 2 == 2 * (t * t)) by field.
    rewrite E. split; nra.
  - assert (E : 1 - (1 - t) * 2 * ((1 - t) * 2) / 2 == 1 - 2 * ((1 - t) * (1 - t)))
      by field.
    rewrite E. split; nra.
Qed.

Lemma frame_within_unit (dt : Q) (sv : Reanimated.SharedValue) :
  0 <= dt -> within_unit sv -> within_unit (Reanimated.frame dt sv).
Proof.
  intros Hdt [Hval Hanim]. unfold Reanimated.frame.
  destruct (Reanimated.animation sv) as [a|] eqn:Ha.
  - destruct Hanim as (Hs & Ht & Hdur & Hel).
    destruct (Qle_bool (Reanimated.duration a) (Reanimated.elapsed a + dt)) eqn:E.
    + split; simpl; [exact Ht | exact I].
    + assert (Hrun : Reanimated.elapsed a + dt < Reanimated.duration a).
      { destruct (Qlt_le_dec (Reanimated.elapsed a + dt) (Reanimated.duration a))
          as [Hl | Hl]; [exact Hl|].
        apply Qle_bool_iff in Hl. congruence. }
      assert (Hp0 : 0 <= (Reanimated.elapsed a + dt) / Reanimated.duration a).
      { apply Qle_shift_div_l; [exact Hdur | lra]. }
      assert (Hp1 : (Reanimated.elapsed a + dt) / Reanimated.duration a <= 1).
      { apply Qle_shift_div_r; [exact Hdur | lra]. }
      destruct (easing_unit _ Hp0 Hp1) as [He0 He1].
      split; simpl.
      * set (e := Reanimated.easing
                    ((Reanimated.elapsed a + dt) / Reanimated.duration a)) in *.
        split; nra.
      * repeat split; try tauto; lra.
  - split; [exact Hval | rewrite Ha; exact I].
Qed.

Lemma dispatch_within_unit p ev w w' effs :
  frame_forward ev = true ->
  within_unit (isFocused w) ->
  dispatch p ev w = Ok tt w' effs ->
  within_unit (isFocused w').
Proof.
  intros Hev Hin H.
  destruct ev; by_handler H; simpl; try exact Hin;
    try (destruct Hin as [Hval _]; split; simpl;
         [exact Hval | repeat split; try tauto; lra]).
  apply frame_within_unit; [|exact Hin].
  apply Qle_bool_iff. exact Hev.
Qed.

(** With time running forward, the focus progress of a mounted instance
    never leaves [0,1], also in the middle of a transition and when
    transitions interrupt one another.  So the border width stays in [0,1],
    and the animated width stays between its two end points
    [containerWidth - cancelButtonWidth - 10] and [containerWidth]. *)
Theorem isFocused_stays_within_unit h evs p :
  forallb frame_forward evs = true ->
  exists q w effs st,
    run h evs p (mount p) = Ok q w effs /\
    0 <= Reanimated.value (isFocused w) <= 1 /\
    animatedStyle w = Some st /\
    0 <= borderWidth st <= 1 /\
    (0 <= cancelButtonWidth w ->
     containerWidth w - cancelButtonWidth w - 10 <= width st <= containerWidth w).
Proof.
  intros Hall.
  destruct (run_total h evs p (mount p)) as (q & w & effs & Hrun).
  assert (Hin : within_unit (isFocused w)).
  { assert (H0 : within_unit (isFocused (mount p))).
    { split; simpl; [split; discriminate | exact I]. }
    revert Hall H0 Hrun. generalize (mount p) as w0. revert p q w effs.
    induction evs as [|ev evs IH]; intros p q w effs w0 Hall H0 H.
    - inversion H; subst. exact H0.
    - simpl in Hall. apply andb_true_iff in Hall as [Hev Hall].
      destruct (dispatch_total p ev w0) as (w1 & e1 & Hd).
      rewrite (run_cons h ev evs p w0 w1 e1 Hd) in H.
      destruct (run h evs (Host.react h e1 p) w1) as [qb wb eb|] eqn:Hb;
        [|discriminate].
      inversion H; subst.
      apply (IH _ _ _ _ w1 Hall (dispatch_within_unit _ _ _ _ _ Hev H0 Hd) Hb). }
  destruct Hin as [Hval _].
  destruct (animatedStyle_width w) as (st & Hst & Hw & Hb).
  exists q, w, effs, st.
  split; [exact Hrun|]. split; [exact Hval|]. split; [exact Hst|].
  split; [rewrite Hb; exact Hval|].
  intros Hcb. rewrite Hw. unfold MARGIN_LEFT_BUTTON.
  set (v := Reanimated.value (isFocused w)) in *.
  split; nra.
Qed.

Lemma isFocused_stays_within_unit_witness :
  exists q w effs st,
    run Host.fixed [Layout 300; ButtonLayout 80; Focused 1%nat; Frame 100;
                    Blurred 2%nat; Frame 40; Focused 3%nat; Frame 200]
      props_bare (mount props_bare) = Ok q w effs /\
    0 <= Reanimated.value (isFocused w) <= 1 /\
    animatedStyle w = Some st /\
    210 <= width st <= 300.
Proof.
  destruct (isFocused_stays_within_unit Host.fixed
              [Layout 300; ButtonLayout 80; Focused 1%nat; Frame 100;
               Blurred 2%nat; Frame 40; Focused 3%nat; Frame 200]
              props_bare eq_refl)
    as (q & w & effs & st & Hrun & Hval & Hst & _ & Hwidth).
  exists q, w, effs, st.
  split; [exact Hrun|]. split; [exact Hval|]. split; [exact Hst|].
  vm_compute in Hrun. inversion Hrun; subst.
  apply Hwidth. discriminate.
Defined.

(** ** The rendered tree *)

(** In every render the container view, the input container, the text
    input and the cancel affordance are present whatever the props are (the
    cancel affordance does not depend on the focus or on [value]); the
    clear affordance is the only conditional element; no test identifier
    occurs twice; and the cancel affordance is wired both to the layout
    capture and to the cancel handler. *)
Theorem rendered_identifiers (p : SearchBarProps) :
  (forall id,
      In id ["SearchBar__container-view"; "SearchBar__view-inputcontainer";
             "searchbar__textInput"; "SearchBar__cancel-button"]%string ->
      In id (testIDs (SearchBar p))) /\
  (In "SearchBar__clear-button"%string (testIDs (SearchBar p)) <->
   Js.truthy_string (value p) = true) /\
  NoDup (testIDs (SearchBar p)) /\
  wiring_of "SearchBar__cancel-button" (SearchBar p) =
    [("onLayout"%string, HOnButtonLayout); ("onPress"%string, HOnPressCancel)] /\
  wiring_of "SearchBar__clear-button" (SearchBar p) =
    (if Js.truthy_string (value p)
     then [("onPress"%string, HOnPressClear)] else []).
Proof.
  unfold SearchBar.
  destruct (value p) as [[|c s]|]; simpl;
    (split; [intros id Hid; simpl in Hid; intuition (subst; simpl; tauto)|]);
    (split; [split; intros H; try reflexivity; try discriminate;
             simpl in H; intuition discriminate|]);
    (split; [repeat constructor; simpl; intuition discriminate|]);
    split; reflexivity.
Qed.

(** ** Reports of the absent text *)

Lemma times_app (f : Effect -> bool) (l1 l2 : list Effect) :
  times f (l1 ++ l2) = (times f l1 + times f l2)%nat.
Proof. unfold times. rewrite filter_app. apply length_app. Qed.

(** [onChangeText(undefined)] is reported once for every press on cancel,
    at most once for every press on clear (none when the affordance is not
    rendered at that moment), and by nothing else. *)
Theorem absent_text_reports_bounded h evs p w :
  exists q w' effs,
    run h evs p w = Ok q w' effs /\
    (List.length (filter is_press_cancel evs)
       <= times is_change_to_absent effs
       <= List.length (filter is_press_cancel evs)
          + List.length (filter is_press_clear evs))%nat.
Proof.
  destruct (run_total h evs p w) as (q & w' & effs & Hrun).
  exists q, w', effs. split; [exact Hrun|].
  revert p w q w' effs Hrun.
  induction evs as [|ev evs IH]; intros p w q w' effs H.
  - inversion H; subst. unfold times. simpl. lia.
  - destruct (dispatch_total p ev w) as (w1 & e1 & Hd).
    rewrite (run_cons h ev evs p w w1 e1 Hd) in H.
    destruct (run h evs (Host.react h e1 p) w1) as [qb wb eb|] eqn:Hb;
      [|discriminate].
    inversion H; subst.
    specialize (IH _ _ _ _ _ Hb).
    rewrite times_app.
    destruct ev; by_handler Hd; unfold times in *; simpl; lia.
Qed.
